(* Shallow embedding of src/src/Connector/Connector.ts (ts-shelf): the
   ConnectorClass HTTP facade, its URL construction, its promise chains
   (fetch -> then -> catch) and the shared mutable host. *)

From Stdlib Require Import String ZArith List Bool Lia.
Import ListNotations.
Open Scope string_scope.
Set Warnings "-register-all".

(* ------------------------------------------------------------------ *)
(** * JavaScript values used by the connector *)

(** A JSON value, the result of [response.json()]. *)
Inductive json : Type :=
| JNull
| JBool (b : bool)
| JNumber (z : Z)
| JString (s : string)
| JArray (l : list json)
| JObject (l : list (string * json)).

(** A [Blob], as its bytes. *)
Definition blob := list Byte.byte.

(** Modelled from the spec: the error classes [HttpError] and
    [NetworkError] of "../errors" (not in src/). [HttpError] carries the
    status and the status text, [NetworkError] the transport message; both
    are classes of their own, neither one a [SyntaxError]. The other
    constructors are the built-in errors the code meets: a [SyntaxError]
    (JSON parse failure), a [TypeError] (what fetch rejects with on a network
    failure) and a plain [Error(msg)]. *)
Inductive js_error : Type :=
| SyntaxError (msg : string)
| TypeError (msg : string)
| PlainError (msg : string)
| HttpError (status : Z) (statusText : string)
| NetworkError (msg : string).

(** [err.message]. *)
Definition message (e : js_error) : string :=
  match e with
  | SyntaxError m | TypeError m | PlainError m | NetworkError m => m
  | HttpError _ t => t
  end.

(** [err instanceof SyntaxError]. *)
Definition instanceof_SyntaxError (e : js_error) : bool :=
  match e with SyntaxError _ => true | _ => false end.

(** [err instanceof HttpError]. *)
Definition instanceof_HttpError (e : js_error) : bool :=
  match e with HttpError _ _ => true | _ => false end.

(** How a promise settles. *)
Inductive outcome (A : Type) : Type :=
| Resolved (a : A)
| Rejected (e : js_error).
Arguments Resolved {A} a.
Arguments Rejected {A} e.

(** The observable calls a request makes: the transport call and the body
    extractions of the response. *)
Inductive body_init : Type :=
| BodyRaw (s : string)
| BodyJSON (v : json).   (* the text JSON.stringify(v) *)

(** The [RequestInit] fields the connector reads or sets. *)
Record RequestInit : Type := mkInit {
  ri_method : option string;
  ri_credentials : option string;
  ri_headers : option (list (string * string));
  ri_body : option body_init
}.

(** [{}]. *)
Definition empty_init : RequestInit := mkInit None None None None.

(** The fetch [Response]: status fields and the three body extractions,
    each with the way its promise settles. *)
Record Response : Type := mkResponse {
  ok : bool;
  status : Z;
  statusText : string;
  resp_json : outcome json;
  resp_text : outcome string;
  resp_blob : outcome blob
}.

(** A response as fetch builds it: [ok] is [status] in 200..299. *)
Definition well_formed (r : Response) : bool :=
  Bool.eqb (ok r) ((200 <=? status r)%Z && (status r <=? 299)%Z).

Inductive event : Type :=
| EvFetch (url : string) (init : RequestInit)
| EvJson
| EvText
| EvBlob.

(** A promise chain with the calls it made: the log and the settlement. *)
Definition M (A : Type) : Type := (list event * outcome A)%type.

Definition ret {A} (a : A) : M A := ([], Resolved a).
Definition throw {A} (e : js_error) : M A := ([], Rejected e).

(** [p.then(f)]: [f] may return a value, a promise or throw. *)
Definition then_ {A B} (p : M A) (f : A -> M B) : M B :=
  match p with
  | (l, Resolved a) => let (l', r) := f a in (app l l', r)
  | (l, Rejected e) => (l, Rejected e)
  end.

(** [p.catch(g)]. *)
Definition catch_ {A} (p : M A) (g : js_error -> M A) : M A :=
  match p with
  | (l, Resolved a) => (l, Resolved a)
  | (l, Rejected e) => let (l', r) := g e in (app l l', r)
  end.

Definition fmapM {A B} (f : A -> B) (p : M A) : M B :=
  match p with
  | (l, Resolved a) => (l, Resolved (f a))
  | (l, Rejected e) => (l, Rejected e)
  end.

(** [response.json()], [response.text()], [response.blob()]. *)
Definition json_ (r : Response) : M json := ([EvJson], resp_json r).
Definition text_ (r : Response) : M string := ([EvText], resp_text r).
Definition blob_ (r : Response) : M blob := ([EvBlob], resp_blob r).

(* ------------------------------------------------------------------ *)
(** * The connector state *)

(** [ConnectorClass] has one field, [host]; [window.location.host], the
    ambient host, is kept beside it. *)
Record connector : Type := mkConnector {
  host : string;
  location_host : string
}.

(** [constructor() { this.host = window.location.host; }] *)
Definition new_ConnectorClass (loc : string) : connector :=
  mkConnector loc loc.

(** [host || window.location.host] for [host?: string]: [undefined] and
    [""] are the falsy values. *)
Definition setHost (c : connector) (h : option string) : connector :=
  mkConnector
    (match h with
     | Some s => if String.eqb s "" then location_host c else s
     | None => location_host c
     end)
    (location_host c).

(** [initConnect(host)] calls [Connector.setHost(host)] on the singleton. *)
Definition initConnect (c : connector) (h : option string) : connector :=
  setHost c h.

(** [prefix: string = 'api'] *)
Definition default_prefix (p : option string) : string :=
  match p with Some s => s | None => "api" end.

(** [options: RequestInit = {}] *)
Definition default_options (o : option RequestInit) : RequestInit :=
  match o with Some i => i | None => empty_init end.

(** [`//${this.host}/${prefix ? `${prefix}/` : ''}${path}`] *)
Definition build_url (host prefix path : string) : string :=
  "//" ++ host ++ "/" ++ (if String.eqb prefix "" then "" else prefix ++ "/") ++ path.

(* ------------------------------------------------------------------ *)
(** * The request methods *)

(** The shared [.catch] handler, written out identically in every method:
    a [SyntaxError] becomes [new Error('fetchApi: bad JSON')], an
    [HttpError] is rethrown, anything else becomes a [NetworkError]. *)
Definition bad_json_message : string := "fetchApi: bad JSON".

Definition api_catch {A} (err : js_error) : M A :=
  if instanceof_SyntaxError err then throw (PlainError bad_json_message)
  else if instanceof_HttpError err then throw err
  else throw (NetworkError (message err)).

(** [{...options, credentials: 'include'}] *)
Definition with_credentials (o : RequestInit) : RequestInit :=
  mkInit (ri_method o) (Some "include") (ri_headers o) (ri_body o).

(** [{...options, method: 'HEAD', credentials: 'include'}] *)
Definition head_init (o : RequestInit) : RequestInit :=
  mkInit (Some "HEAD") (Some "include") (ri_headers o) (ri_body o).

Definition json_headers : list (string * string) :=
  [("Content-Type", "application/json")].

(** [body || {}] for a JSON-like [body: any]; [None] is [undefined]. *)
Definition js_truthy (v : json) : bool :=
  match v with
  | JNull => false
  | JBool b => b
  | JNumber z => negb (Z.eqb z 0)
  | JString s => negb (String.eqb s "")
  | JArray _ | JObject _ => true
  end.

Definition body_or_empty (body : option json) : json :=
  match body with
  | Some v => if js_truthy v then v else JObject []
  | None => JObject []
  end.

(** [{...options, body: JSON.stringify(body || {}), credentials: 'include',
      headers: {'Content-Type': 'application/json'}, method}] *)
Definition json_body_init (meth : string) (body : option json) (o : RequestInit)
  : RequestInit :=
  mkInit (Some meth) (Some "include") (Some json_headers)
         (Some (BodyJSON (body_or_empty body))).

(** [{...options, credentials: 'include', headers: {...}, method: 'DELETE'}] *)
Definition delete_init (o : RequestInit) : RequestInit :=
  mkInit (Some "DELETE") (Some "include") (Some json_headers) (ri_body o).

(** The [.then] handlers (the arrow functions of the source). *)
Definition fetchApi_then (response : Response) : M json :=
  if negb (ok response) then throw (HttpError (status response) (statusText response))
  else json_ response.

(** Results of [postApi]/[patchApi]: JSON, or the raw text on 204. *)
Inductive post_result : Type :=
| PostJson (j : json)
| PostText (s : string).

Definition postApi_then (response : Response) : M post_result :=
  if negb (ok response) then throw (HttpError (status response) (statusText response))
  else if Z.eqb (status response) 204 then fmapM PostText (text_ response)
  else fmapM PostJson (json_ response).

Definition patchApi_then := postApi_then.

Definition deleteApi_then := fetchApi_then.

Definition getApi_then (response : Response) : M string :=
  if negb (ok response) then throw (HttpError (status response) (statusText response))
  else text_ response.

Definition headApi_then (response : Response) : M bool :=
  if negb (ok response) then ret true
  else ret false.

Definition downloadApi_then (response : Response) : M blob :=
  if negb (ok response) then throw (HttpError (status response) (statusText response))
  else blob_ response.

Section Connector.

(** The transport: how [fetch(url, init)] settles. *)
Variable transport : string -> RequestInit -> outcome Response.

(** [fetch(url, init)]: the call is logged. *)
Definition fetch (url : string) (init : RequestInit) : M Response :=
  ([EvFetch url init], transport url init).

Definition fetchApi (c : connector) (path : string) (options : option RequestInit)
    (prefix : option string) : connector * M json :=
  let url := build_url (host c) (default_prefix prefix) path in
  (c, catch_ (then_ (fetch url (with_credentials (default_options options)))
                    fetchApi_then)
             api_catch).

Definition postApi (c : connector) (path : string) (body : option json)
    (options : option RequestInit) (prefix : option string)
    : connector * M post_result :=
  let url := build_url (host c) (default_prefix prefix) path in
  (c, catch_ (then_ (fetch url (json_body_init "POST" body (default_options options)))
                    postApi_then)
             api_catch).

Definition patchApi (c : connector) (path : string) (body : option json)
    (options : option RequestInit) (prefix : option string)
    : connector * M post_result :=
  let url := build_url (host c) (default_prefix prefix) path in
  (c, catch_ (then_ (fetch url (json_body_init "PATCH" body (default_options options)))
                    patchApi_then)
             api_catch).

Definition deleteApi (c : connector) (path : string) (options : option RequestInit)
    (prefix : option string) : connector * M json :=
  let url := build_url (host c) (default_prefix prefix) path in
  (c, catch_ (then_ (fetch url (delete_init (default_options options)))
                    deleteApi_then)
             api_catch).

Definition getApi (c : connector) (path : string) (options : option RequestInit)
    (prefix : option string) : connector * M string :=
  let url := build_url (host c) (default_prefix prefix) path in
  (c, catch_ (then_ (fetch url (with_credentials (default_options options)))
                    getApi_then)
             api_catch).

Definition headApi (c : connector) (path : string) (options : option RequestInit)
    (prefix : option string) : connector * M bool :=
  let url := build_url (host c) (default_prefix prefix) path in
  (c, catch_ (then_ (fetch url (head_init (default_options options)))
                    headApi_then)
             api_catch).

Definition downloadApi (c : connector) (path : string) (options : option RequestInit)
    (prefix : option string) : connector * M blob :=
  let url := build_url (host c) (default_prefix prefix) path in
  (c, catch_ (then_ (fetch url (with_credentials (default_options options)))
                    downloadApi_then)
             api_catch).

End Connector.

(** [openSocketConnection(io, messager)]: [io.connect(this.host)], then
    [messager(connection)]. Both are caller-supplied functions; they may
    touch the connector singleton, so they run in state-passing style. *)
Definition openSocketConnection {Conn : Type} (c : connector)
    (connect : string -> connector -> connector * Conn)
    (messager : Conn -> connector -> connector) : connector :=
  let (c1, connection) := connect (host c) c in
  messager connection c1.

(* ------------------------------------------------------------------ *)
(** * One entry point for the seven request methods *)

(** A call of one of the request methods with its arguments. *)
Inductive call : Type :=
| CFetch (path : string) (options : option RequestInit) (prefix : option string)
| CPost (path : string) (body : option json) (options : option RequestInit)
        (prefix : option string)
| CPatch (path : string) (body : option json) (options : option RequestInit)
         (prefix : option string)
| CDelete (path : string) (options : option RequestInit) (prefix : option string)
| CGet (path : string) (options : option RequestInit) (prefix : option string)
| CHead (path : string) (options : option RequestInit) (prefix : option string)
| CDownload (path : string) (options : option RequestInit) (prefix : option string).

(** What the returned promise resolves with, whatever the method. *)
Inductive value : Type :=
| VJson (j : json)
| VPost (r : post_result)
| VText (s : string)
| VBool (b : bool)
| VBlob (b : blob).

Definition call_path (m : call) : string :=
  match m with
  | CFetch p _ _ | CPost p _ _ _ | CPatch p _ _ _ | CDelete p _ _
  | CGet p _ _ | CHead p _ _ | CDownload p _ _ => p
  end.

Definition call_prefix (m : call) : option string :=
  match m with
  | CFetch _ _ x | CPost _ _ _ x | CPatch _ _ _ x | CDelete _ _ x
  | CGet _ _ x | CHead _ _ x | CDownload _ _ x => x
  end.

(** Every method but [headApi] returns a body. *)
Definition body_returning (m : call) : bool :=
  match m with CHead _ _ _ => false | _ => true end.

Definition run_call (transport : string -> RequestInit -> outcome Response)
    (c : connector) (m : call) : connector * M value :=
  match m with
  | CFetch p o x => let (c', r) := fetchApi transport c p o x in (c', fmapM VJson r)
  | CPost p b o x => let (c', r) := postApi transport c p b o x in (c', fmapM VPost r)
  | CPatch p b o x => let (c', r) := patchApi transport c p b o x in (c', fmapM VPost r)
  | CDelete p o x => let (c', r) := deleteApi transport c p o x in (c', fmapM VJson r)
  | CGet p o x => let (c', r) := getApi transport c p o x in (c', fmapM VText r)
  | CHead p o x => let (c', r) := headApi transport c p o x in (c', fmapM VBool r)
  | CDownload p o x =>
      let (c', r) := downloadApi transport c p o x in (c', fmapM VBlob r)
  end.

(** The synchronous part of a call: the URL and init passed to [fetch]. *)
Definition call_request (c : connector) (m : call) : string * RequestInit :=
  let url := build_url (host c) (default_prefix (call_prefix m)) (call_path m) in
  match m with
  | CFetch _ o _ | CGet _ o _ | CDownload _ o _ =>
      (url, with_credentials (default_options o))
  | CPost _ b o _ => (url, json_body_init "POST" b (default_options o))
  | CPatch _ b o _ => (url, json_body_init "PATCH" b (default_options o))
  | CDelete _ o _ => (url, delete_init (default_options o))
  | CHead _ o _ => (url, head_init (default_options o))
  end.

(** The asynchronous part: the [.then] and [.catch] run on the fetch promise. *)
Definition call_continue (m : call) (p : M Response) : M value :=
  match m with
  | CFetch _ _ _ => fmapM VJson (catch_ (then_ p fetchApi_then) api_catch)
  | CPost _ _ _ _ => fmapM VPost (catch_ (then_ p postApi_then) api_catch)
  | CPatch _ _ _ _ => fmapM VPost (catch_ (then_ p patchApi_then) api_catch)
  | CDelete _ _ _ => fmapM VJson (catch_ (then_ p deleteApi_then) api_catch)
  | CGet _ _ _ => fmapM VText (catch_ (then_ p getApi_then) api_catch)
  | CHead _ _ _ => fmapM VBool (catch_ (then_ p headApi_then) api_catch)
  | CDownload _ _ _ => fmapM VBlob (catch_ (then_ p downloadApi_then) api_catch)
  end.

(** The URL of the first transport call of a log. *)
Definition fetched_url (l : list event) : option string :=
  match l with EvFetch u _ :: _ => Some u | _ => None end.

(* ------------------------------------------------------------------ *)
(** * Interleaving requests with [setHost] *)

(** A request whose [fetch] has been issued and not yet settled. *)
Record pending : Type := mkPending {
  pd_id : nat;
  pd_url : string;
  pd_init : RequestInit;
  pd_call : call
}.

(** A request whose promise has settled, with the URL it fetched. *)
Record settled : Type := mkSettled {
  sd_id : nat;
  sd_url : string;
  sd_result : M value
}.

Record machine : Type := mkMachine {
  m_conn : connector;
  m_next : nat;
  m_pending : list pending;
  m_settled : list settled
}.

Inductive action : Type :=
| Invoke (m : call)                          (* a request method is called *)
| SetHostAct (h : option string)             (* Connector.setHost(h) *)
| Settle (id : nat) (resp : outcome Response). (* fetch of request id settles *)

Definition init_machine (c : connector) : machine := mkMachine c 0 [] [].

Definition step (st : machine) (a : action) : machine :=
  match a with
  | Invoke m =>
      let rq := call_request (m_conn st) m in
      mkMachine (m_conn st) (S (m_next st))
        (app (m_pending st) [mkPending (m_next st) (fst rq) (snd rq) m])
        (m_settled st)
  | SetHostAct h =>
      mkMachine (setHost (m_conn st) h) (m_next st) (m_pending st) (m_settled st)
  | Settle id resp =>
      match find (fun p => Nat.eqb (pd_id p) id) (m_pending st) with
      | Some p =>
          mkMachine (m_conn st) (m_next st)
            (filter (fun q => negb (Nat.eqb (pd_id q) id)) (m_pending st))
            (app (m_settled st)
               [mkSettled id (pd_url p)
                  (call_continue (pd_call p) ([EvFetch (pd_url p) (pd_init p)], resp))])
      | None => st
      end
  end.

Definition run (st : machine) (tr : list action) : machine :=
  fold_left step tr st.

(** The URL rule in the words of the spec, to compare [build_url] with:
    [//{host}/{prefix}/{path}] for a non-empty prefix, [//{host}/{path}]
    otherwise, the prefix defaulting to ["api"]. *)
Definition spec_url (h : string) (prefix : option string) (path : string) : string :=
  let p := match prefix with Some s => s | None => "api" end in
  if String.eqb p "" then "//" ++ h ++ "/" ++ path
  else "//" ++ h ++ "/" ++ p ++ "/" ++ path.

(** The methods whose success mapping is JSON. *)
Definition json_mapped (m : call) : bool :=
  match m with
  | CFetch _ _ _ | CPost _ _ _ _ | CPatch _ _ _ _ | CDelete _ _ _ => true
  | _ => false
  end.

(** [postApi] and [patchApi], which read the text of a 204 response. *)
Definition post_like (m : call) : bool :=
  match m with CPost _ _ _ _ | CPatch _ _ _ _ => true | _ => false end.

(** For [getApi] and [downloadApi], the body extraction rejects with a
    [SyntaxError]; [headApi] extracts nothing. *)
Definition extraction_syntax_error (m : call) (r : Response) : bool :=
  match m with
  | CGet _ _ _ =>
      match resp_text r with Rejected e => instanceof_SyntaxError e | _ => false end
  | CDownload _ _ _ =>
      match resp_blob r with Rejected e => instanceof_SyntaxError e | _ => false end
  | _ => false
  end.

Definition is_syntax_rejection {A} (o : outcome A) : bool :=
  match o with Rejected e => instanceof_SyntaxError e | Resolved _ => false end.

(* ------------------------------------------------------------------ *)
(** * Small checks on concrete inputs *)

Definition resp404 : Response :=
  mkResponse false 404 "Not Found" (Resolved JNull) (Resolved "") (Resolved []).

(** A successful 204 response with no body: [json()] fails with a
    [SyntaxError] on it, [text()] gives the empty string. *)
Definition resp204_empty : Response :=
  mkResponse true 204 "No Content"
    (Rejected (SyntaxError "Unexpected end of JSON input")) (Resolved "") (Resolved []).

Definition resp200_bad_json : Response :=
  mkResponse true 200 "OK" (Rejected (SyntaxError "Unexpected token <"))
    (Resolved "<html>") (Resolved []).

(** An ok response whose [text()] fails with a [SyntaxError], which the
    transport interface allows for every body extraction. *)
Definition resp200_text_syntax_error : Response :=
  mkResponse true 200 "OK" (Resolved JNull)
    (Rejected (SyntaxError "bad text")) (Resolved []).

(** Every id in the machine is below the next fresh id. *)
Definition ids_below (st : machine) : Prop :=
  (forall p, In p (m_pending st) -> pd_id p < m_next st) /\
  (forall s, In s (m_settled st) -> sd_id s < m_next st).

(** Every entry of request [k] carries the URL [u]. *)
Definition url_fixed (k : nat) (u : string) (st : machine) : Prop :=
  k < m_next st /\
  (forall p, In p (m_pending st) -> pd_id p = k -> pd_url p = u) /\
  (forall s, In s (m_settled st) -> sd_id s = k -> sd_url s = u).

Definition resp200_text : Response :=
  mkResponse true 200 "OK" (Resolved JNull) (Resolved "body") (Resolved []).

(** The scenario of the spec: [getApi("a")] on host ["old"], then
    [setHost("new")], then the first call settles: it fetched
    ["//old/api/a"]. *)
Definition settled_a : settled :=
  mkSettled 0 "//old/api/a"
    (call_continue (CGet "a" None None)
       ([EvFetch "//old/api/a" (with_credentials empty_init)], Resolved resp200_text)).

(** The init of the first transport call of a log. *)
Definition fetched_init (l : list event) : option RequestInit :=
  match l with EvFetch _ i :: _ => Some i | _ => None end.

(** The error a settled promise rejected with, if any. *)
Definition rejection_of {A} (o : outcome A) : option js_error :=
  match o with Rejected e => Some e | Resolved _ => None end.

(** How the one body extraction a method performs on an ok response
    rejects: [json()], [text()] (for [postApi]/[patchApi] at 204, and
    [getApi]) or [blob()]; [headApi] performs none. *)
Definition performed_extraction_error (m : call) (r : Response) : option js_error :=
  match m with
  | CFetch _ _ _ | CDelete _ _ _ => rejection_of (resp_json r)
  | CPost _ _ _ _ | CPatch _ _ _ _ =>
      if (status r =? 204)%Z then rejection_of (resp_text r) else rejection_of (resp_json r)
  | CGet _ _ _ => rejection_of (resp_text r)
  | CDownload _ _ _ => rejection_of (resp_blob r)
  | CHead _ _ _ => None
  end.

(** The body extractions. *)
Definition is_extraction (ev : event) : bool :=
  match ev with EvJson | EvText | EvBlob => true | EvFetch _ _ => false end.

(** Caller options that set every field the connector may override. *)
Definition caller_options : RequestInit :=
  mkInit (Some "PUT") (Some "omit") (Some [("X-Token", "t")]) (Some (BodyRaw "raw")).

Definition resp200_json : Response :=
  mkResponse true 200 "OK" (Resolved (JNumber 7)) (Resolved "7") (Resolved [Byte.x37]).

Definition resp200_text_consumed : Response :=
  mkResponse true 200 "OK" (Rejected (TypeError "body used already"))
    (Rejected (TypeError "body used already")) (Rejected (TypeError "body used already")).

Example build_url_api : build_url "h" "api" "users/1" = "//h/api/users/1".
Proof. reflexivity. Qed.

Example build_url_empty : build_url "h" "" "x" = "//h/x".
Proof. reflexivity. Qed.

Example fetchApi_404 :
  snd (fetchApi (fun _ _ => Resolved resp404) (new_ConnectorClass "h") "a" None None)
  = ([EvFetch "//h/api/a" (with_credentials empty_init)],
     Rejected (HttpError 404 "Not Found")).
Proof. reflexivity. Qed.

Example headApi_404 :
  snd (snd (headApi (fun _ _ => Resolved resp404) (new_ConnectorClass "h") "a" None None))
  = Resolved true.
Proof. reflexivity. Qed.

Example getApi_boom :
  snd (snd (getApi (fun _ _ => Rejected (PlainError "boom")) (new_ConnectorClass "h")
                   "a" None None))
  = Rejected (NetworkError "boom").
Proof. reflexivity. Qed.

(* ------------------------------------------------------------------ *)
(** * Theorems *)

(** Every method is its synchronous part (URL and init, computed from the
    current host) followed by the continuation on the fetch promise. *)
Lemma run_call_split :
  forall transport c m,
    run_call transport c m =
    (c, call_continue m (fetch transport (fst (call_request c m))
                                         (snd (call_request c m)))).
Proof. intros transport c m; destruct m; reflexivity. Qed.

Ltac unfold_handlers :=
  unfold patchApi_then, deleteApi_then, fetchApi_then, postApi_then,
         getApi_then, headApi_then, downloadApi_then, api_catch,
         json_, text_, blob_, ret, throw in *.

(** C1: for a response with [ok] false, every body-returning method rejects
    with [HttpError(status, statusText)], and the only call it made is the
    transport call: no [json()], [text()] or [blob()] is attempted. *)
Theorem non_ok_rejects_before_body :
  forall transport c m r,
    body_returning m = true ->
    transport (fst (call_request c m)) (snd (call_request c m)) = Resolved r ->
    ok r = false ->
    snd (run_call transport c m) =
    ([EvFetch (fst (call_request c m)) (snd (call_request c m))],
     Rejected (HttpError (status r) (statusText r))).
Proof.
  intros transport c m r Hb Ht Hok.
  rewrite run_call_split; unfold fetch; rewrite Ht.
  destruct m; simpl in Hb; try discriminate; simpl; unfold_handlers;
    rewrite Hok; reflexivity.
Qed.

Lemma non_ok_rejects_before_body_witness :
  body_returning (CGet "users" None None) = true /\
  snd (run_call (fun _ _ => Resolved resp404) (new_ConnectorClass "h")
                (CGet "users" None None)) =
  ([EvFetch "//h/api/users" (with_credentials empty_init)],
   Rejected (HttpError 404 "Not Found")).
Proof.
  split; [reflexivity |].
  apply (non_ok_rejects_before_body (fun _ _ => Resolved resp404)
           (new_ConnectorClass "h") (CGet "users" None None) resp404);
    reflexivity.
Defined.

Lemma then_log :
  forall A B (p : M A) (f : A -> M B), exists l', fst (then_ p f) = app (fst p) l'.
Proof.
  intros A B [l [a|e]] f; simpl.
  - destruct (f a) as [l' r]; exists l'; reflexivity.
  - exists []; symmetry; apply app_nil_r.
Qed.

Lemma catch_log :
  forall A (p : M A) (g : js_error -> M A), exists l', fst (catch_ p g) = app (fst p) l'.
Proof.
  intros A [l [a|e]] g; simpl.
  - exists []; symmetry; apply app_nil_r.
  - destruct (g e) as [l' r]; exists l'; reflexivity.
Qed.

Lemma fmapM_log : forall A B (f : A -> B) (p : M A), fst (fmapM f p) = fst p.
Proof. intros A B f [l [a|e]]; reflexivity. Qed.

(** The continuation only appends to the log of the fetch promise. *)
Lemma call_continue_log :
  forall m p, exists l', fst (call_continue m p) = app (fst p) l'.
Proof.
  intros m p.
  destruct m; simpl; rewrite fmapM_log;
    match goal with
    | |- context [catch_ (then_ p ?f) ?g] =>
        destruct (catch_log _ (then_ p f) g) as [l1 H1];
        destruct (then_log _ _ p f) as [l2 H2];
        exists (app l2 l1); rewrite H1, H2, app_assoc; reflexivity
    end.
Qed.

Lemma string_append_assoc :
  forall a b d : string, (a ++ b) ++ d = a ++ (b ++ d).
Proof. induction a as [|ch a IH]; intros b d; simpl; [reflexivity | now rewrite IH]. Qed.

Lemma build_url_spec :
  forall h p path, build_url h (default_prefix p) path = spec_url h p path.
Proof.
  intros h p path; unfold build_url, spec_url, default_prefix.
  destruct (String.eqb _ ""); [reflexivity |].
  now rewrite string_append_assoc.
Qed.

(** The first call of every method is the fetch of [spec_url]. *)
Lemma fetched_url_run_call :
  forall transport c m,
    fetched_url (fst (snd (run_call transport c m))) =
    Some (spec_url (host c) (call_prefix m) (call_path m)).
Proof.
  intros transport c m.
  rewrite run_call_split; simpl snd.
  destruct (call_continue_log m (fetch transport (fst (call_request c m))
                                         (snd (call_request c m)))) as [l' Hl].
  rewrite Hl; simpl.
  rewrite <- build_url_spec; destruct m; reflexivity.
Qed.

(** C2: the URL every method fetches is [//{host}/{prefix}/{path}] for a
    non-empty prefix and [//{host}/{path}] for the empty prefix, the path
    inserted as it is, the prefix defaulting to ["api"]. *)
Theorem request_url_rule :
  forall transport c m,
    fetched_url (fst (snd (run_call transport c m))) =
    Some (spec_url (host c) (call_prefix m) (call_path m)).
Proof. exact fetched_url_run_call. Qed.

(** C3 (as stated, refuted): an ok response whose [json()] fails with a
    syntax error does not make [postApi] reject when its status is 204:
    [postApi] reads [text()] there and resolves. *)
Lemma bad_json_claim_fails_at_204 :
  well_formed resp204_empty = true /\
  ~ (forall transport c m r s,
        json_mapped m = true ->
        transport (fst (call_request c m)) (snd (call_request c m)) = Resolved r ->
        ok r = true ->
        resp_json r = Rejected (SyntaxError s) ->
        snd (snd (run_call transport c m)) = Rejected (PlainError bad_json_message)).
Proof.
  split; [reflexivity |].
  intro H.
  specialize (H (fun _ _ => Resolved resp204_empty) (new_ConnectorClass "h")
                (CPost "items" None None None) resp204_empty
                "Unexpected end of JSON input" eq_refl eq_refl eq_refl eq_refl).
  vm_compute in H; discriminate H.
Qed.

(** C3 (amended): for an ok response whose [json()] fails with a syntax
    error, [fetchApi] and [deleteApi], and [postApi] and [patchApi] when the
    status is not 204, reject with the error whose message is exactly
    ["fetchApi: bad JSON"]; at status 204 [postApi] and [patchApi] read
    [text()] instead of [json()] and resolve with the raw text. *)
Theorem bad_json_rejection :
  forall transport c m r s,
    json_mapped m = true ->
    transport (fst (call_request c m)) (snd (call_request c m)) = Resolved r ->
    ok r = true ->
    resp_json r = Rejected (SyntaxError s) ->
    ((post_like m = false \/ status r <> 204%Z) ->
     snd (snd (run_call transport c m)) = Rejected (PlainError bad_json_message)) /\
    (post_like m = true -> status r = 204%Z -> forall t, resp_text r = Resolved t ->
     snd (run_call transport c m) =
       ([EvFetch (fst (call_request c m)) (snd (call_request c m)); EvText],
        Resolved (VPost (PostText t)))).
Proof.
  intros transport c m r s Hm Ht Hok Hj.
  rewrite run_call_split; unfold fetch; rewrite Ht.
  split.
  - intros H204.
    destruct m; simpl in Hm, H204 |- *; try discriminate; unfold_handlers;
      rewrite Hok; simpl;
      try (destruct H204 as [H204 | H204]; [discriminate |];
           apply Z.eqb_neq in H204; rewrite H204; simpl);
      rewrite Hj; reflexivity.
  - intros Hp H204 t Htx.
    destruct m; simpl in Hm, Hp |- *; try discriminate; unfold_handlers;
      rewrite Hok, H204; simpl; rewrite Htx; reflexivity.
Qed.

Lemma bad_json_rejection_witness :
  snd (snd (run_call (fun _ _ => Resolved resp200_bad_json) (new_ConnectorClass "h")
                     (CPatch "items/1" None None None)))
  = Rejected (PlainError bad_json_message) /\
  snd (snd (run_call (fun _ _ => Resolved resp204_empty) (new_ConnectorClass "h")
                     (CPost "items" None None None)))
  = Resolved (VPost (PostText "")).
Proof.
  split.
  - destruct (bad_json_rejection (fun _ _ => Resolved resp200_bad_json) (new_ConnectorClass "h")
                (CPatch "items/1" None None None) resp200_bad_json "Unexpected token <"
                eq_refl eq_refl eq_refl eq_refl) as [H _].
    apply H; right; discriminate.
  - destruct (bad_json_rejection (fun _ _ => Resolved resp204_empty) (new_ConnectorClass "h")
                (CPost "items" None None None) resp204_empty "Unexpected end of JSON input"
                eq_refl eq_refl eq_refl eq_refl) as [_ H].
    rewrite (H eq_refl eq_refl "" eq_refl); reflexivity.
Defined.

(** C4: when the transport call itself rejects with an error that is
    neither a [SyntaxError] nor an [HttpError], every method rejects with
    [NetworkError] carrying that error's message. *)
Theorem transport_failure_network_error :
  forall transport c m e,
    transport (fst (call_request c m)) (snd (call_request c m)) = Rejected e ->
    instanceof_SyntaxError e = false ->
    instanceof_HttpError e = false ->
    snd (run_call transport c m) =
    ([EvFetch (fst (call_request c m)) (snd (call_request c m))],
     Rejected (NetworkError (message e))).
Proof.
  intros transport c m e Ht Hs Hh.
  rewrite run_call_split; unfold fetch; rewrite Ht.
  destruct m; simpl; unfold api_catch; rewrite Hs, Hh; reflexivity.
Qed.

Lemma transport_failure_network_error_witness :
  snd (snd (run_call (fun _ _ => Rejected (PlainError "boom")) (new_ConnectorClass "h")
                     (CFetch "users" None None)))
  = Rejected (NetworkError "boom").
Proof.
  exact (f_equal snd
    (transport_failure_network_error (fun _ _ => Rejected (PlainError "boom"))
       (new_ConnectorClass "h") (CFetch "users" None None) (PlainError "boom")
       eq_refl eq_refl eq_refl)).
Defined.

(** C5: [headApi] resolves [false] on an ok response and [true] on a non-ok
    one, without reading the body; it rejects only when the transport call
    itself rejects. *)
Theorem headApi_inverted_boolean :
  forall transport c path options prefix,
    let u := build_url (host c) (default_prefix prefix) path in
    let i := head_init (default_options options) in
    match transport u i with
    | Resolved r =>
        snd (headApi transport c path options prefix) = ([EvFetch u i], Resolved (negb (ok r)))
    | Rejected _ =>
        exists e', snd (snd (headApi transport c path options prefix)) = Rejected e'
    end.
Proof.
  intros transport c path options prefix u i.
  unfold headApi, fetch; fold u i.
  destruct (transport u i) as [r | e]; simpl.
  - unfold headApi_then, ret; destruct (ok r); reflexivity.
  - unfold api_catch, throw.
    destruct (instanceof_SyntaxError e); [eexists; reflexivity |].
    destruct (instanceof_HttpError e); eexists; reflexivity.
Qed.

(** C6: for an ok response, [postApi] and [patchApi] read [text()] and
    resolve with the raw text when the status is 204, and read [json()] and
    resolve with the parsed value otherwise. *)
Theorem post_patch_204_text :
  forall transport c m r,
    post_like m = true ->
    transport (fst (call_request c m)) (snd (call_request c m)) = Resolved r ->
    ok r = true ->
    (status r = 204%Z -> forall s, resp_text r = Resolved s ->
       snd (run_call transport c m) =
       ([EvFetch (fst (call_request c m)) (snd (call_request c m)); EvText],
        Resolved (VPost (PostText s)))) /\
    (status r <> 204%Z -> forall j, resp_json r = Resolved j ->
       snd (run_call transport c m) =
       ([EvFetch (fst (call_request c m)) (snd (call_request c m)); EvJson],
        Resolved (VPost (PostJson j)))).
Proof.
  intros transport c m r Hm Ht Hok.
  rewrite run_call_split; unfold fetch; rewrite Ht.
  split.
  - intros H204 s Hs.
    destruct m; simpl in Hm |- *; try discriminate; unfold_handlers;
      rewrite Hok, H204; simpl; rewrite Hs; reflexivity.
  - intros H204 j Hj. apply Z.eqb_neq in H204.
    destruct m; simpl in Hm |- *; try discriminate; unfold_handlers;
      rewrite Hok, H204; simpl; rewrite Hj; reflexivity.
Qed.

Lemma post_patch_204_text_witness :
  snd (snd (run_call (fun _ _ => Resolved resp204_empty) (new_ConnectorClass "h")
                     (CPost "items" None None None)))
  = Resolved (VPost (PostText "")).
Proof.
  destruct (post_patch_204_text (fun _ _ => Resolved resp204_empty) (new_ConnectorClass "h")
              (CPost "items" None None None) resp204_empty eq_refl eq_refl eq_refl)
    as [H _].
  rewrite (H eq_refl "" eq_refl); reflexivity.
Defined.

(** C7: [setHost(h)] assigns a non-empty [h] and otherwise ([undefined] or
    [""]) resets the host to [window.location.host]; every request issued
    afterwards fetches a URL built on the new host. *)
Theorem setHost_assigns_or_resets :
  forall transport c s m,
    s <> "" ->
    host (setHost c (Some s)) = s /\
    host (setHost c None) = location_host c /\
    host (setHost c (Some "")) = location_host c /\
    fetched_url (fst (snd (run_call transport (setHost c (Some s)) m))) =
      Some (spec_url s (call_prefix m) (call_path m)) /\
    fetched_url (fst (snd (run_call transport (setHost c None) m))) =
      Some (spec_url (location_host c) (call_prefix m) (call_path m)).
Proof.
  intros transport c s m Hs.
  assert (Hh : host (setHost c (Some s)) = s).
  { simpl. apply String.eqb_neq in Hs. now rewrite Hs. }
  split; [exact Hh |].
  split; [reflexivity |].
  split; [reflexivity |].
  split.
  - rewrite fetched_url_run_call, Hh; reflexivity.
  - rewrite fetched_url_run_call; reflexivity.
Qed.

Lemma setHost_assigns_or_resets_witness :
  "x" <> "" /\
  host (setHost (new_ConnectorClass "loc") (Some "x")) = "x" /\
  fetched_url (fst (snd (run_call (fun _ _ => Resolved resp404)
                           (setHost (new_ConnectorClass "loc") (Some "x"))
                           (CGet "a" None None)))) = Some "//x/api/a".
Proof.
  assert (Hx : "x" <> "") by discriminate.
  destruct (setHost_assigns_or_resets (fun _ _ => Resolved resp404)
              (new_ConnectorClass "loc") "x" (CGet "a" None None) Hx)
    as [H1 [_ [_ [H4 _]]]].
  split; [exact Hx | split; [exact H1 | rewrite H4; reflexivity]].
Defined.

(** C10 (as stated, refuted): [openSocketConnection] runs caller-supplied
    callbacks, and a [messager] that calls [initConnect] changes the host
    across the call. *)
Lemma open_socket_callback_changes_host :
  ~ (forall (Conn : Type) c (connect : string -> connector -> connector * Conn)
            (messager : Conn -> connector -> connector),
        host (openSocketConnection c connect messager) = host c).
Proof.
  intro H.
  specialize (H string (new_ConnectorClass "loc") (fun h c => (c, h))
                (fun _ c => initConnect c (Some "other"))).
  vm_compute in H; discriminate H.
Qed.

(** C10 (amended): no request method changes the connector (the state
    after the call is the state before it); [openSocketConnection] writes
    no host itself, so the host is unchanged across it whenever its
    [io.connect] and [messager] callbacks leave the host alone; and
    [initConnect] is [setHost] on the singleton. *)
Theorem host_written_only_by_setHost :
  forall (Conn : Type) transport c m
         (connect : string -> connector -> connector * Conn)
         (messager : Conn -> connector -> connector),
    (forall h c', host (fst (connect h c')) = host c') ->
    (forall x c', host (messager x c') = host c') ->
    fst (run_call transport c m) = c /\
    host (openSocketConnection c connect messager) = host c /\
    (forall h, initConnect c h = setHost c h).
Proof.
  intros Conn transport c m connect messager Hc Hm.
  split; [rewrite run_call_split; reflexivity |].
  split; [| reflexivity].
  unfold openSocketConnection.
  specialize (Hc (host c) c).
  destruct (connect (host c) c) as [c1 conn]; simpl in Hc.
  rewrite Hm; exact Hc.
Qed.

Lemma host_written_only_by_setHost_witness :
  host (openSocketConnection (new_ConnectorClass "loc") (fun h c => (c, h))
          (fun _ c => c)) = "loc".
Proof.
  destruct (host_written_only_by_setHost string (fun _ _ => Resolved resp404)
              (new_ConnectorClass "loc") (CHead "a" None None)
              (fun h c => (c, h)) (fun _ c => c)
              (fun _ _ => eq_refl) (fun _ _ => eq_refl)) as [_ [H _]].
  exact H.
Defined.

(** C9 (as stated, refuted): [getApi] rejects with the generic bad-JSON
    error when its [text()] extraction fails with a [SyntaxError]: its
    [.catch] maps every [SyntaxError] to that error. *)
Lemma getApi_bad_json_on_text_syntax_error :
  ~ (forall transport c m,
        json_mapped m = false ->
        snd (snd (run_call transport c m)) <> Rejected (PlainError bad_json_message)).
Proof.
  intro H.
  apply (H (fun _ _ => Resolved resp200_text_syntax_error) (new_ConnectorClass "h")
           (CGet "a" None None) eq_refl).
  reflexivity.
Qed.

(** C9 (amended): [getApi], [headApi] and [downloadApi] never call
    [json()], and they reject with the generic bad-JSON error exactly when
    the transport call rejects with a [SyntaxError], or the response is ok
    and their own extraction ([text()], [blob()]; none for [headApi])
    rejects with a [SyntaxError]. *)
Theorem non_json_methods_bad_json_only_on_syntax_error :
  forall transport c m,
    json_mapped m = false ->
    let u := fst (call_request c m) in
    let i := snd (call_request c m) in
    ~ In EvJson (fst (snd (run_call transport c m))) /\
    (snd (snd (run_call transport c m)) = Rejected (PlainError bad_json_message) <->
     is_syntax_rejection (transport u i) = true \/
     exists r, transport u i = Resolved r /\ ok r = true /\
               extraction_syntax_error m r = true).
Proof.
  intros transport c m Hm u i.
  rewrite run_call_split; unfold fetch; fold u i.
  destruct (transport u i) as [r | e]; simpl.
  - destruct m; simpl in Hm |- *; try discriminate; unfold_handlers;
      destruct (ok r) eqn:Hok; simpl;
      [ destruct (resp_text r) as [t | e] eqn:Hx; [| destruct e]
      | | | | destruct (resp_blob r) as [b | e] eqn:Hx; [| destruct e] | ];
      simpl;
      (split;
       [ intros Hin; repeat (destruct Hin as [Hin | Hin]; try discriminate Hin); exact Hin
       | split;
         [ intros H; try discriminate H; right; exists r;
           repeat split; try assumption; simpl; rewrite Hx; reflexivity
         | intros [H | [r' [Hr [Hok' Hx']]]];
           [ discriminate H
           | injection Hr as <-; simpl in Hx';
             try rewrite Hx in Hx'; try congruence; discriminate Hx' ] ] ]).
  - destruct m; simpl in Hm |- *; try discriminate; unfold_handlers;
      destruct e; simpl;
      (split;
       [ intros Hin; repeat (destruct Hin as [Hin | Hin]; try discriminate Hin); exact Hin
       | split;
         [ intros H; try discriminate H; left; reflexivity
         | intros [H | [r' [Hr _]]]; [ try discriminate H; reflexivity | discriminate Hr ] ] ]).
Qed.

Lemma non_json_methods_bad_json_only_on_syntax_error_witness :
  ~ In EvJson (fst (snd (run_call (fun _ _ => Resolved resp200_text_syntax_error)
                            (new_ConnectorClass "h") (CGet "a" None None)))) /\
  snd (snd (run_call (fun _ _ => Resolved resp200_text_syntax_error)
              (new_ConnectorClass "h") (CGet "a" None None)))
  = Rejected (PlainError bad_json_message).
Proof.
  destruct (non_json_methods_bad_json_only_on_syntax_error
              (fun _ _ => Resolved resp200_text_syntax_error)
              (new_ConnectorClass "h") (CGet "a" None None) eq_refl) as [H1 [_ H2]].
  split; [exact H1 |].
  apply H2; right; exists resp200_text_syntax_error; split; [reflexivity | split; reflexivity].
Defined.

Lemma step_ids_below : forall st a, ids_below st -> ids_below (step st a).
Proof.
  intros st a [Hp Hs]; destruct a as [m | h | id resp]; simpl.
  - split; simpl.
    + intros p Hin; apply in_app_iff in Hin as [Hin | [<- | []]]; simpl.
      * specialize (Hp p Hin); lia.
      * lia.
    + intros s Hin; specialize (Hs s Hin); lia.
  - split; assumption.
  - destruct (find (fun p => Nat.eqb (pd_id p) id) (m_pending st)) as [p |] eqn:Hf;
      [| split; assumption].
    apply find_some in Hf as [Hpin Hid]; apply Nat.eqb_eq in Hid.
    split; simpl.
    + intros q Hin; apply filter_In in Hin as [Hin _]; auto.
    + intros s Hin; apply in_app_iff in Hin as [Hin | [<- | []]]; simpl; auto.
      rewrite <- Hid; auto.
Qed.

Lemma step_url_fixed :
  forall k u st a, url_fixed k u st -> url_fixed k u (step st a).
Proof.
  intros k u st a [Hk [Hp Hs]]; destruct a as [m | h | id resp]; simpl.
  - split; [simpl; lia | split; simpl].
    + intros p Hin Hid; apply in_app_iff in Hin as [Hin | [<- | []]]; auto.
      simpl in Hid; lia.
    + exact Hs.
  - split; [exact Hk | split; assumption].
  - destruct (find (fun p => Nat.eqb (pd_id p) id) (m_pending st)) as [p |] eqn:Hf;
      [| split; [exact Hk | split; assumption]].
    apply find_some in Hf as [Hpin Hid]; apply Nat.eqb_eq in Hid.
    split; [exact Hk | split; simpl].
    + intros q Hin; apply filter_In in Hin as [Hin _]; auto.
    + intros s Hin Hsid; apply in_app_iff in Hin as [Hin | [<- | []]]; auto.
      simpl in *; apply Hp; [exact Hpin | congruence].
Qed.

Lemma run_preserves :
  forall (P : machine -> Prop),
    (forall st a, P st -> P (step st a)) ->
    forall tr st, P st -> P (run st tr).
Proof.
  intros P HP tr; induction tr as [| a tr IH]; intros st Hst; simpl; auto.
Qed.

Lemma run_app : forall st tr1 tr2, run st (app tr1 tr2) = run (run st tr1) tr2.
Proof. intros; unfold run; apply fold_left_app. Qed.

(** C8: a request reads the host once, when it is invoked: whatever
    [setHost] calls and other requests follow, the settled request with the
    id it was given fetched the URL built on the host of its invocation. *)
Theorem in_flight_url_uses_invocation_host :
  forall c tr1 m tr2 s,
    let st1 := run (init_machine c) tr1 in
    In s (m_settled (run (init_machine c) (app tr1 (Invoke m :: tr2)))) ->
    sd_id s = m_next st1 ->
    sd_url s = build_url (host (m_conn st1)) (default_prefix (call_prefix m)) (call_path m).
Proof.
  intros c tr1 m tr2 s st1 Hin Hid.
  rewrite run_app in Hin; fold st1 in Hin.
  assert (Hb : ids_below st1).
  { apply run_preserves; [apply step_ids_below |].
    split; intros x []. }
  assert (Hf : url_fixed (m_next st1)
                 (build_url (host (m_conn st1)) (default_prefix (call_prefix m)) (call_path m))
                 (step st1 (Invoke m))).
  { destruct Hb as [Hp Hs].
    split; [simpl; lia | split; simpl].
    - intros p Hpin Hpid; apply in_app_iff in Hpin as [Hpin | [<- | []]].
      + specialize (Hp p Hpin); lia.
      + simpl; destruct m; reflexivity.
    - intros s' Hsin Hsid; specialize (Hs s' Hsin); lia. }
  simpl in Hin.
  destruct (run_preserves _ (step_url_fixed _ _) tr2 _ Hf) as [_ [_ Hs]].
  apply Hs; assumption.
Qed.

Lemma in_flight_url_uses_invocation_host_witness :
  In settled_a
     (m_settled (run (init_machine (new_ConnectorClass "old"))
                   [Invoke (CGet "a" None None); SetHostAct (Some "new");
                    Settle 0 (Resolved resp200_text)])) /\
  sd_url settled_a = build_url "old" "api" "a".
Proof.
  assert (Hin : In settled_a
     (m_settled (run (init_machine (new_ConnectorClass "old"))
                   [Invoke (CGet "a" None None); SetHostAct (Some "new");
                    Settle 0 (Resolved resp200_text)]))).
  { vm_compute; left; reflexivity. }
  split; [exact Hin |].
  exact (in_flight_url_uses_invocation_host (new_ConnectorClass "old") []
           (CGet "a" None None) [SetHostAct (Some "new"); Settle 0 (Resolved resp200_text)]
           settled_a Hin eq_refl).
Defined.

(* ------------------------------------------------------------------ *)
(** * Further properties of the connector *)

(** The init of the transport call is the one [call_request] computes. *)
Lemma fetched_init_run_call :
  forall transport c m,
    fetched_init (fst (snd (run_call transport c m))) = Some (snd (call_request c m)).
Proof.
  intros transport c m.
  rewrite run_call_split; simpl snd.
  destruct (call_continue_log m (fetch transport (fst (call_request c m))
                                         (snd (call_request c m)))) as [l' Hl].
  rewrite Hl; reflexivity.
Qed.

(** Every method sends its request with [credentials: 'include'], whatever
    the caller's options say. *)
Theorem every_request_includes_credentials :
  forall transport c m,
    exists i, fetched_init (fst (snd (run_call transport c m))) = Some i /\
              ri_credentials i = Some "include".
Proof.
  intros transport c m; exists (snd (call_request c m)).
  split; [apply fetched_init_run_call | destruct m; reflexivity].
Qed.

(** [postApi] and [patchApi] send method POST / PATCH, the JSON content
    type and the body [JSON.stringify(body || {})], overriding the caller's
    method, headers and body: a falsy or missing body is sent as [{}]. *)
Theorem post_patch_request_init :
  forall transport c path body options prefix,
    let sent := body_or_empty body in
    fetched_init (fst (snd (run_call transport c (CPost path body options prefix)))) =
      Some (mkInit (Some "POST") (Some "include") (Some json_headers) (Some (BodyJSON sent))) /\
    fetched_init (fst (snd (run_call transport c (CPatch path body options prefix)))) =
      Some (mkInit (Some "PATCH") (Some "include") (Some json_headers) (Some (BodyJSON sent))) /\
    (match body with
     | Some v => js_truthy v = false -> sent = JObject []
     | None => sent = JObject []
     end).
Proof.
  intros transport c path body options prefix sent.
  rewrite !fetched_init_run_call.
  split; [reflexivity | split; [reflexivity |]].
  unfold sent, body_or_empty; destruct body as [v |]; [intros Hv; now rewrite Hv | reflexivity].
Qed.

(** [fetchApi], [getApi] and [downloadApi] pass the caller's method,
    headers and body through and only force [credentials: 'include'];
    without options the request has no method, headers or body set. *)
Theorem plain_methods_keep_caller_options :
  forall transport c path o prefix,
    let expected := mkInit (ri_method o) (Some "include") (ri_headers o) (ri_body o) in
    fetched_init (fst (snd (run_call transport c (CFetch path (Some o) prefix)))) = Some expected /\
    fetched_init (fst (snd (run_call transport c (CGet path (Some o) prefix)))) = Some expected /\
    fetched_init (fst (snd (run_call transport c (CDownload path (Some o) prefix)))) = Some expected /\
    fetched_init (fst (snd (run_call transport c (CFetch path None prefix)))) =
      Some (mkInit None (Some "include") None None) /\
    fetched_init (fst (snd (run_call transport c (CGet path None prefix)))) =
      Some (mkInit None (Some "include") None None) /\
    fetched_init (fst (snd (run_call transport c (CDownload path None prefix)))) =
      Some (mkInit None (Some "include") None None).
Proof.
  intros transport c path o prefix expected.
  rewrite !fetched_init_run_call; repeat split.
Qed.

(** [headApi] forces method HEAD and [deleteApi] forces method DELETE with
    the JSON content type; both keep the caller's body, and [headApi] keeps
    the caller's headers. *)
Theorem head_delete_request_init :
  forall transport c path o prefix,
    fetched_init (fst (snd (run_call transport c (CHead path (Some o) prefix)))) =
      Some (mkInit (Some "HEAD") (Some "include") (ri_headers o) (ri_body o)) /\
    fetched_init (fst (snd (run_call transport c (CDelete path (Some o) prefix)))) =
      Some (mkInit (Some "DELETE") (Some "include") (Some json_headers) (ri_body o)).
Proof.
  intros transport c path o prefix.
  rewrite !fetched_init_run_call; split; reflexivity.
Qed.

(** On an ok response, [fetchApi] and [deleteApi] resolve with the parsed
    JSON, [getApi] with the text and [downloadApi] with the blob unchanged,
    each after exactly one body extraction. *)
Theorem ok_response_success_mapping :
  forall transport c m r,
    transport (fst (call_request c m)) (snd (call_request c m)) = Resolved r ->
    ok r = true ->
    let ev := EvFetch (fst (call_request c m)) (snd (call_request c m)) in
    match m with
    | CFetch _ _ _ | CDelete _ _ _ =>
        forall j, resp_json r = Resolved j ->
          snd (run_call transport c m) = ([ev; EvJson], Resolved (VJson j))
    | CGet _ _ _ =>
        forall t, resp_text r = Resolved t ->
          snd (run_call transport c m) = ([ev; EvText], Resolved (VText t))
    | CDownload _ _ _ =>
        forall b, resp_blob r = Resolved b ->
          snd (run_call transport c m) = ([ev; EvBlob], Resolved (VBlob b))
    | _ => True
    end.
Proof.
  intros transport c m r Ht Hok ev.
  destruct m; try exact I; intros x Hx;
    rewrite run_call_split; unfold fetch; rewrite Ht; simpl; unfold_handlers;
    rewrite Hok; simpl; rewrite Hx; reflexivity.
Qed.

Lemma ok_response_success_mapping_witness :
  snd (snd (run_call (fun _ _ => Resolved resp200_json) (new_ConnectorClass "h")
                     (CDownload "f" None None))) = Resolved (VBlob [Byte.x37]).
Proof.
  pose proof (ok_response_success_mapping (fun _ _ => Resolved resp200_json)
                (new_ConnectorClass "h") (CDownload "f" None None) resp200_json
                eq_refl eq_refl) as H.
  exact (f_equal snd (H [Byte.x37] eq_refl)).
Defined.

(** When the body extraction of an ok response fails with an error that is
    neither a [SyntaxError] nor an [HttpError] (say a [TypeError]), the
    method rejects with a [NetworkError] carrying that error's message. *)
Theorem extraction_failure_network_error :
  forall transport c m r e,
    transport (fst (call_request c m)) (snd (call_request c m)) = Resolved r ->
    ok r = true ->
    instanceof_SyntaxError e = false ->
    instanceof_HttpError e = false ->
    performed_extraction_error m r = Some e ->
    snd (snd (run_call transport c m)) = Rejected (NetworkError (message e)).
Proof.
  intros transport c m r e Ht Hok Hs Hh He.
  rewrite run_call_split; unfold fetch; rewrite Ht.
  destruct m; simpl in He |- *; try discriminate He; unfold_handlers; rewrite Hok; simpl;
    try (destruct (status r =? 204)%Z); simpl;
    repeat match goal with
    | H : rejection_of ?o = Some _ |- _ =>
        destruct o; simpl in H; [discriminate H | injection H as ->]
    end; simpl; rewrite Hs, Hh; reflexivity.
Qed.

Lemma extraction_failure_network_error_witness :
  snd (snd (run_call (fun _ _ => Resolved resp200_text_consumed) (new_ConnectorClass "h")
                     (CGet "a" None None))) = Rejected (NetworkError "body used already").
Proof.
  exact (extraction_failure_network_error (fun _ _ => Resolved resp200_text_consumed)
           (new_ConnectorClass "h") (CGet "a" None None) resp200_text_consumed
           (TypeError "body used already") eq_refl eq_refl eq_refl eq_refl eq_refl).
Defined.

(** [api_catch] rejects with one of the three error kinds. *)
Lemma api_catch_kinds :
  forall A e l r, @api_catch A e = (l, r) ->
    l = [] /\
    (r = Rejected (PlainError bad_json_message) \/
     (exists s t, r = Rejected (HttpError s t)) \/
     (exists msg, r = Rejected (NetworkError msg))).
Proof.
  intros A e l r H; unfold api_catch, throw in H.
  destruct e; simpl in H; injection H as <- <-; split; eauto 6.
Qed.

(** Every rejection of every method is one of three kinds: the generic
    bad-JSON error, an [HttpError], or a [NetworkError]. *)
Theorem rejections_closed_taxonomy :
  forall transport c m e,
    snd (snd (run_call transport c m)) = Rejected e ->
    e = PlainError bad_json_message \/
    (exists s t, e = HttpError s t) \/
    (exists msg, e = NetworkError msg).
Proof.
  intros transport c m e H.
  rewrite run_call_split in H; simpl in H.
  destruct m; simpl in H;
    match type of H with
    | snd (fmapM _ (catch_ ?p api_catch)) = _ =>
        destruct p as [l0 [a | e0]]; simpl in H; [discriminate H |];
        destruct (api_catch e0) as [l1 r1] eqn:Hk;
        apply api_catch_kinds in Hk as [_ Hk]; simpl in H;
        destruct r1; simpl in H; [discriminate H |]; injection H as ->;
        destruct Hk as [Hk | [[s [t Hk]] | [msg Hk]]]; injection Hk as ->; eauto
    end.
Qed.

Lemma rejections_closed_taxonomy_witness :
  Rejected (A := value) (NetworkError "boom") =
  snd (snd (run_call (fun _ _ => Rejected (PlainError "boom")) (new_ConnectorClass "h")
                     (CHead "a" None None))) /\
  exists msg, NetworkError "boom" = NetworkError msg.
Proof.
  split; [reflexivity |].
  destruct (rejections_closed_taxonomy (fun _ _ => Rejected (PlainError "boom"))
              (new_ConnectorClass "h") (CHead "a" None None) (NetworkError "boom") eq_refl)
    as [H | [[s [t H]] | H]]; [discriminate H | discriminate H | exact H].
Defined.

(** Each call of [fetchApi], [deleteApi], [getApi], [headApi] or
    [downloadApi] makes exactly one transport call, first, followed by at
    most one body extraction: no retry, no chained request. *)
Theorem one_round_trip_per_call :
  forall transport c m,
    post_like m = false ->
    exists rest,
      fst (snd (run_call transport c m)) =
        EvFetch (fst (call_request c m)) (snd (call_request c m)) :: rest /\
      length rest <= 1 /\
      forallb is_extraction rest = true.
Proof.
  intros transport c m _.
  rewrite run_call_split; unfold fetch; simpl snd.
  destruct (transport (fst (call_request c m)) (snd (call_request c m))) as [r | e].
  - destruct m; simpl; unfold_handlers;
      try (destruct (ok r)); simpl;
      try (destruct (status r =? 204)%Z); simpl;
      repeat match goal with
      | |- context [match ?x with Resolved _ => _ | Rejected _ => _ end] =>
          destruct x as [? | ?]; simpl
      | |- context [if instanceof_SyntaxError ?e then _ else _] =>
          destruct (instanceof_SyntaxError e); simpl
      | |- context [if instanceof_HttpError ?e then _ else _] =>
          destruct (instanceof_HttpError e); simpl
      end;
      eexists; (split; [reflexivity | split; [simpl; lia | reflexivity]]).
  - destruct m; simpl; unfold api_catch, throw;
      destruct (instanceof_SyntaxError e); simpl;
      try (destruct (instanceof_HttpError e)); simpl;
      eexists; (split; [reflexivity | split; [simpl; lia | reflexivity]]).
Qed.

Lemma one_round_trip_per_call_witness :
  exists rest,
    fst (snd (run_call (fun _ _ => Resolved resp200_text) (new_ConnectorClass "h")
                       (CGet "a" None None))) =
      EvFetch "//h/api/a" (with_credentials empty_init) :: rest /\
    length rest <= 1 /\ forallb is_extraction rest = true.
Proof.
  exact (one_round_trip_per_call (fun _ _ => Resolved resp200_text) (new_ConnectorClass "h")
           (CGet "a" None None) eq_refl).
Defined.

(** Successive [setHost] calls: the last one wins, the ambient host is never
    changed, and resetting a fresh connector gives it back unchanged. *)
Theorem setHost_last_call_wins :
  forall c h1 h2 loc,
    setHost (setHost c h1) h2 = setHost c h2 /\
    location_host (setHost c h1) = location_host c /\
    setHost (new_ConnectorClass loc) None = new_ConnectorClass loc /\
    initConnect (initConnect c h1) h2 = initConnect c h2.
Proof.
  intros c h1 h2 loc.
  split; [reflexivity | split; [reflexivity | split; reflexivity]].
Qed.

(** The asynchronous machine agrees with the methods: a request invoked,
    followed by a [setHost], then settled with a transport outcome, yields
    the result the method gives on that outcome from the connector it was
    invoked on. *)
Theorem settled_result_matches_method :
  forall c m h resp,
    m_settled (run (init_machine c) [Invoke m; SetHostAct h; Settle 0 resp]) =
    [mkSettled 0 (fst (call_request c m)) (snd (run_call (fun _ _ => resp) c m))].
Proof.
  intros c m h resp.
  rewrite run_call_split; reflexivity.
Qed.

(** A request settles at most once: settling an id a second time changes
    nothing. *)
Theorem settle_at_most_once :
  forall st id r1 r2,
    step (step st (Settle id r1)) (Settle id r2) = step st (Settle id r1).
Proof.
  intros st id r1 r2; simpl.
  destruct (find (fun p => Nat.eqb (pd_id p) id) (m_pending st)) as [p |] eqn:Hf.
  - simpl.
    destruct (find (fun p0 => Nat.eqb (pd_id p0) id)
                (filter (fun q => negb (Nat.eqb (pd_id q) id)) (m_pending st)))
      as [q |] eqn:Hg; [| reflexivity].
    apply find_some in Hg as [Hq Hid]; apply filter_In in Hq as [_ Hn].
    rewrite Hid in Hn; discriminate Hn.
  - simpl; rewrite Hf; reflexivity.
Qed.
